(** * seastar metrics layer (core/metrics.hh): value model and declaration model

    A shallow embedding of the header [core/metrics.hh]:
    - [label_instance] and the [label] factory,
    - [impl::data_type] and the tagged union [impl::metric_value],
    - [impl::make_function], the accessor builder over a callable or a
      captured reference,
    - [impl::metric_definition_impl] and the [make_*] factories.

    Integers of C++ are [Z] with the 64-bit wrap-around written out; a
    [double] is an IEEE 754 binary64 number of the Standard Library's
    [SpecFloat]; the [union] of [metric_value] is a sum that records which
    member was written last; variables captured by reference live in a
    store indexed by addresses. *)

From Stdlib Require Import ZArith Lia Bool List Ascii String.
From Stdlib Require Import Floats.SpecFloat.
From Stdlib Require Import DecimalString DecimalPos DecimalZ.
From stdpp Require Import base option gmap strings.

Local Open Scope Z_scope.
Local Open Scope string_scope.

(** ** Fixed-width integers and doubles *)

Definition two64 : Z := 2 ^ 64.
Definition two63 : Z := 2 ^ 63.

(** Conversion to [uint64_t]: the value modulo 2^64. *)
Definition wrap_u64 (n : Z) : Z := n mod two64.

(** Conversion to [int64_t]: the two's complement reading of the low 64
    bits. *)
Definition wrap_i64 (n : Z) : Z := (n + two63) mod two64 - two63.

Definition in_u64 (n : Z) : Prop := 0 <= n < two64.
Definition in_i64 (n : Z) : Prop := - two63 <= n < two63.

(** [double]: IEEE 754 binary64 (53 bits of precision, emax 1024). *)
Definition double : Type := spec_float.
Definition dprec : Z := 53.
Definition demax : Z := 1024.

(** Integer to [double], rounding to nearest even. *)
Definition double_of_Z (n : Z) : double := binary_normalize dprec demax n 0 false.

Definition double_add (x y : double) : double := SFadd dprec demax x y.

(** [double] to integer: the fractional part is discarded ([None] for a
    NaN or an infinity, which have no integer part). *)
Definition double_trunc (x : double) : option Z :=
  match x with
  | S754_zero _ => Some 0
  | S754_finite s m e =>
      Some (cond_Zopp s
              (match e with
               | Z0 => Zpos m
               | Zpos p => Zpos m * 2 ^ Zpos p
               | Zneg p => Zpos m / 2 ^ Zpos p
               end))
  | S754_infinity _ | S754_nan => None
  end.

(** A value of a fundamental arithmetic type, the [T] of the templates.
    Narrower integer types are sub-ranges of the 64-bit ones and [float]
    embeds exactly into [double], so three cases cover them. *)
Inductive fundamental : Type :=
| signed_int (n : Z)
| unsigned_int (n : Z)
| floating (x : double).

(** The implicit conversions [int64_t(i)], [uint64_t(i)], [double(i)].
    Where C++ leaves a floating-to-integer conversion undefined (NaN,
    infinity, integer part out of range) the model takes the wrapped integer
    part, and 0 when there is none. *)
Definition to_int64 (i : fundamental) : Z :=
  match i with
  | signed_int n | unsigned_int n => wrap_i64 n
  | floating x => wrap_i64 (default 0 (double_trunc x))
  end.

Definition to_uint64 (i : fundamental) : Z :=
  match i with
  | signed_int n | unsigned_int n => wrap_u64 n
  | floating x => wrap_u64 (default 0 (double_trunc x))
  end.

Definition to_double (i : fundamental) : double :=
  match i with
  | signed_int n | unsigned_int n => double_of_Z n
  | floating x => x
  end.

(** ** Strings *)

Definition sstring : Type := string.

(** Ordering of [sstring]: lexicographic on the characters, compared as
    unsigned bytes. *)
Definition sstring_lt (a b : sstring) : bool :=
  match String.compare a b with Lt => true | _ => false end.


(** [metric_type_def]: an inherited type (like bytes); [metric_name_type]:
    the metric name; [instance_id_type]: typically the shard id. *)
Definition metric_type_def : Type := sstring.
Definition metric_name_type : Type := sstring.
Definition instance_id_type : Type := sstring.

(** Error kinds of the layer. *)
Inductive error : Type :=
| InvalidDefinition
| TypeMismatch
| DuplicateMetric
| DanglingAccessor.

(** [class description] *)
Module description.

Record t : Type := Build {
  _s : sstring;
}.

(** [description(sstring s = sstring())] *)
Definition make (s : option sstring) : t := {| _s := default EmptyString s |}.

Definition str (d : t) : sstring := _s d.

End description.

(** ** Labels *)

(** The decimal numeral of an integer, with a minus sign when negative. *)
Definition decimal (n : Z) : sstring := NilZero.string_of_int (Z.to_int n).

(** The character with code [n] modulo 256: the value [n] of a [char], a
    [signed char] or [int8_t], an [unsigned char] or [uint8_t]. *)
Definition char_of_code (n : Z) : ascii := ascii_of_N (Z.to_N (n mod 256)).

(** *** Floating-point values as text

    A floating-point value is written as by [printf] with [%.*g] and [p]
    significant digits: the value is rounded to [p] decimal digits (to
    nearest, ties to even), written with an exponent when the decimal
    exponent is below -4 or at least [p] and in fixed notation otherwise, and
    trailing zeros of the fraction are dropped. *)

Fixpoint strip_zeros (s : sstring) : sstring :=
  match s with
  | EmptyString => EmptyString
  | String c r =>
      match strip_zeros r with
      | EmptyString =>
          if Ascii.eqb c "0" then EmptyString else String c EmptyString
      | r' => String c r'
      end
  end.

(** [n / d] rounded to the nearest integer, ties to even ([0 < d]). *)
Definition round_half_even (n d : Z) : Z :=
  let q := n / d in
  match Z.compare (2 * (n mod d)) d with
  | Lt => q
  | Gt => q + 1
  | Eq => if Z.even q then q else q + 1
  end.

(** The [x] with [10^x <= num / den < 10^(x+1)], for [0 < num], [0 < den]. *)
Definition decimal_exponent (num den : Z) : Z :=
  if Z.leb den num then Z.of_nat (String.length (decimal (num / den))) - 1
  else
    let k := Z.of_nat (String.length (decimal (den / num))) in
    if Z.leb den (num * 10 ^ (k - 1)) then - (k - 1) else - k.

(** [num / den * 10^s], rounded. *)
Definition scaled (num den s : Z) : Z :=
  if Z.leb 0 s then round_half_even (num * 10 ^ s) den
  else round_half_even num (den * 10 ^ (- s)).

Definition with_point (int frac : sstring) : sstring :=
  match strip_zeros frac with
  | EmptyString => int
  | f => int ++ "." ++ f
  end.

Definition zeros (n : Z) : sstring := Z.iter n (String "0") EmptyString.

(** The exponent: a sign and at least two digits. *)
Definition print_exponent (x : Z) : sstring :=
  (if Z.ltb x 0 then "-" else "+")
  ++ (if Z.ltb (Z.abs x) 10 then "0" else EmptyString) ++ decimal (Z.abs x).

(** The finite positive value [m * 2^e]. *)
Definition print_g_finite (p : Z) (m : positive) (e : Z) : sstring :=
  let num := match e with Zpos _ => Zpos m * 2 ^ e | _ => Zpos m end in
  let den := match e with Zneg q => 2 ^ Zpos q | _ => 1 end in
  let x0 := decimal_exponent num den in
  let d0 := scaled num den (p - 1 - x0) in
  let x := if Z.eqb d0 (10 ^ p) then x0 + 1 else x0 in
  let ds := decimal (if Z.eqb d0 (10 ^ p) then 10 ^ (p - 1) else d0) in
  if Z.ltb x (-4) || Z.leb p x then
    with_point (substring 0 1 ds) (substring 1 (Z.to_nat (p - 1)) ds)
    ++ "e" ++ print_exponent x
  else if Z.ltb x 0 then
    with_point "0" (zeros (- x - 1) ++ ds)
  else
    with_point (substring 0 (Z.to_nat (x + 1)) ds)
      (substring (Z.to_nat (x + 1)) (Z.to_nat (p - 1 - x)) ds).

(** A NaN has no sign in [double], so it is written without one. *)
Definition print_g (p : Z) (x : double) : sstring :=
  match x with
  | S754_nan => "nan"
  | S754_infinity s => (if s then "-" else EmptyString) ++ "inf"
  | S754_zero s => (if s then "-" else EmptyString) ++ "0"
  | S754_finite s m e =>
      (if s then "-" else EmptyString) ++ print_g_finite p m e
  end.

(** A value that [boost::lexical_cast<std::string>] accepts, by the kind of
    its type [T]: text ([const char*], [std::string], [sstring]); an integer
    type wider than a byte ([short], [int], [long], [long long], signed or
    unsigned); [bool]; a character type, which includes the 8-bit integer
    types [int8_t] and [uint8_t] (see [char_of_code]); [float]; [double].
    ([long double], wide characters and pointers are not covered.)
    The header's examples are [label_instance a("smp_queue", 1)],
    [label_instance a("my_key", "my_value")] and
    [label_instance a("internal_id", -1)]. *)
Inductive streamable : Type :=
| text (s : sstring)
| integer (n : Z)
| boolean (b : bool)
| character (c : ascii)
| single (x : double)
| floating_point (x : double).

(** [boost::lexical_cast<std::string>(v)]: text as it is; an integer in
    decimal with a leading minus sign when negative; a [bool] as 0 or 1; a
    character as itself; a [float] with 9 and a [double] with 17 significant
    digits.  Writing such a value into the buffer does not fail, so there is
    a string for every input and no [bad_lexical_cast]. *)
Definition lexical_cast (v : streamable) : sstring :=
  match v with
  | text s => s
  | integer n => decimal n
  | boolean b => if b then "1" else "0"
  | character c => String c EmptyString
  | single x => print_g 9 x
  | floating_point x => print_g 17 x
  end.

Module label_instance.

Record t : Type := Build {
  _key : sstring;
  _value : sstring;
}.

(** [template<typename T> label_instance(const sstring& key, T v)] *)
Definition make (key : sstring) (v : streamable) : t :=
  {| _key := key; _value := lexical_cast v |}.

Definition key (l : t) : sstring := _key l.
Definition value (l : t) : sstring := _value l.

(** Modelled from the spec: the body of [label_instance::operator==], which
    the header only declares: equality of the (key, value) pairs. *)
Definition op_eq (a b : t) : bool :=
  bool_decide (key a = key b) && bool_decide (value a = value b).

(** Modelled from the spec: the body of [label_instance::operator!=], which
    the header only declares: the negation of the equality. *)
Definition op_ne (a b : t) : bool := negb (op_eq a b).

(** Modelled from the spec: the body of [label_instance::operator<], which
    the header only declares: the lexicographic order on (key, value). *)
Definition op_lt (a b : t) : bool :=
  sstring_lt (key a) (key b)
  || (bool_decide (key a = key b) && sstring_lt (value a) (value b)).

End label_instance.

Module label.

Record t : Type := Build {
  key : sstring;
}.

(** [explicit label(const sstring& key)] *)
Definition make (key : sstring) : t := {| key := key |}.

(** [template<typename T> instance operator()(T value) const] *)
Definition call (l : t) (value : streamable) : label_instance.t :=
  label_instance.make (key l) value.

Definition name (l : t) : sstring := key l.

End label.

(** ** namespace impl: the value binding *)

Module impl.

(** [enum class data_type : uint8_t] *)
Inductive data_type : Type :=
| COUNTER   (* unsigned int 64 *)
| GAUGE     (* double *)
| DERIVE    (* signed int 64 *)
| ABSOLUTE. (* unsigned int 64 *)

#[global] Instance data_type_eq_dec : EqDecision data_type.
Proof. solve_decision. Defined.

(** [struct metric_value] *)
Module metric_value.

(** The anonymous union [u], as the member written last;
    [u_indeterminate] is the union nobody wrote to. *)
Inductive union_u : Type :=
| u_indeterminate
| u_d (x : double)
| u_ui (n : Z)
| u_i (n : Z).

Record t : Type := Build {
  u : union_u;
  _type : data_type;
}.

Definition type (v : t) : data_type := _type v.

(** The readers [d()], [ui()], [i()] return the member they name;
    reading a member other than the one written is outside the model
    ([None]). *)
Definition d (v : t) : option double :=
  match u v with u_d x => Some x | _ => None end.

Definition ui (v : t) : option Z :=
  match u v with u_ui n => Some n | _ => None end.

Definition i (v : t) : option Z :=
  match u v with u_i n => Some n | _ => None end.

(** [metric_value()] *)
Definition make_default : t :=
  {| u := u_indeterminate; _type := GAUGE |}.

(** [template<typename T> metric_value(T i, data_type t)] *)
Definition make (i : fundamental) : data_type -> t := fun t =>
  {| u := match t with
          | DERIVE => u_i (to_int64 i)
          | GAUGE => u_d (to_double i)
          | _ => u_ui (to_uint64 i)
          end;
     _type := t |}.

(** Modelled from the spec: the body of [metric_value::operator+], which
    the header only declares.  Combination is defined only when the two
    tags are equal; the result has that tag and the sum of the typed
    payloads (double addition for Gauge, 64-bit integer addition for the
    others); differing tags, or a payload that cannot be read at its
    tag, are reported as [TypeMismatch]. *)
Definition operator_plus (a c : t) : error + t :=
  if decide (type a = type c) then
    match type a, u a, u c with
    | GAUGE, u_d x, u_d y =>
        inr {| u := u_d (double_add x y); _type := GAUGE |}
    | DERIVE, u_i x, u_i y =>
        inr {| u := u_i (wrap_i64 (x + y)); _type := DERIVE |}
    | COUNTER, u_ui x, u_ui y =>
        inr {| u := u_ui (wrap_u64 (x + y)); _type := COUNTER |}
    | ABSOLUTE, u_ui x, u_ui y =>
        inr {| u := u_ui (wrap_u64 (x + y)); _type := ABSOLUTE |}
    | _, _, _ => inl TypeMismatch
    end
  else inl TypeMismatch.

(** [metric_value& operator+=(const metric_value& c)]:
    [*this = *this + c; return *this;] gives the new [*this], or the
    error of [operator+], in which case nothing was assigned. *)
Definition operator_plus_assign (this c : t) : error + t :=
  match operator_plus this c with
  | inr r => inr r
  | inl e => inl e
  end.

End metric_value.

(** The variables a metric can be bound to, by address. *)
Definition address : Type := positive.
Definition store : Type := gmap address fundamental.

(** [using metric_function = std::function<metric_value()>]: a call reads
    the store; [None] when it reads a variable that is not alive. *)
Definition metric_function : Type := store -> option metric_value.t.

(** [struct metric_type] *)
Module metric_type.

Record t : Type := Build {
  base_type : data_type;
  type_name : metric_type_def;
}.

End metric_type.

(** The argument [val] of the factories: something invokable with no
    argument that returns a value, or a variable of a fundamental type. *)
Inductive value_source : Type :=
| callable (val : store -> option fundamental)
| variable (val : address).

(** [is_callable<T>]: true when [T()] has a non-void result, false for a
    fundamental [T]. *)
Definition is_callable (val : value_source) : bool :=
  match val with
  | callable _ => true
  | variable _ => false
  end.

(** [make_function(T val, data_type dt)], enabled when [is_callable<T>]:
    [return [dt, val] { return metric_value(val(), dt); };] *)
Definition make_function_callable
    (val : store -> option fundamental) (dt : data_type) : metric_function :=
  fun sigma => x ← val sigma; Some (metric_value.make x dt).

(** [make_function(T& val, data_type dt)], enabled when not
    [is_callable<T>]:
    [return [dt, &val] { return metric_value(val, dt); };] *)
Definition make_function_reference
    (val : address) (dt : data_type) : metric_function :=
  fun sigma => x ← sigma !! val; Some (metric_value.make x dt).

(** Overload resolution between the two, on the type of the argument. *)
Definition make_function (val : value_source) (dt : data_type) : metric_function :=
  match val with
  | callable g => make_function_callable g dt
  | variable a => make_function_reference a dt
  end.

(** [struct metric_definition_impl] *)
Module metric_definition_impl.

Record t : Type := Build {
  name : metric_name_type;
  id : instance_id_type;
  type : metric_type.t;
  f : metric_function;
  d : description.t;
  enabled : bool;
  labels : gmap sstring sstring;
}.

(** [std::vector<label_instance>] into [std::map<sstring, sstring>], one
    entry per key. *)
Definition labels_of (l : list label_instance.t) : gmap sstring sstring :=
  foldl (fun m i => <[label_instance.key i := label_instance.value i]> m) ∅ l.

Section Constructor.

(** What makes a non-empty name unusable is left open by the spec. *)
Variable malformed : metric_name_type -> bool.

(** Modelled from the spec: the body of the constructor
    [metric_definition_impl::metric_definition_impl], which the header only
    declares.  An empty or malformed name fails at construction with
    [InvalidDefinition]; otherwise the definition holds the name, the
    instance id, the type descriptor, the accessor, the description, the
    enabled flag and the labels it was given. *)
Definition make
    (name0 : metric_name_type) (id0 : instance_id_type)
    (type0 : metric_type.t) (f0 : metric_function) (d0 : description.t)
    (enabled0 : bool) (labels0 : list label_instance.t) : error + t :=
  if bool_decide (name0 = EmptyString) || malformed name0
  then inl InvalidDefinition
  else inr (Build name0 id0 type0 f0 d0 enabled0 (labels_of labels0)).

End Constructor.

End metric_definition_impl.

End impl.

Import impl.

(** ** The factories *)

Section Factories.

Variable malformed : metric_name_type -> bool.

(** Modelled from the spec: [impl::shard()], which the header only declares:
    the identifier of the calling execution context. *)
Variable shard : instance_id_type.

(** The base factories.  A defaulted parameter is an [option]: [None] is the
    argument left out, for which the default of the declaration is taken
    ([description()], [{}], [true], [impl::shard()] and the name of the
    type).  Each returns
    [{name, instance, {base, iht}, make_function(val, base), d, enabled, labels}]. *)
Definition make_gauge
    (name : metric_name_type) (val : value_source)
    (d : option description.t) (labels : option (list label_instance.t))
    (enabled : option bool) (instance : option instance_id_type)
    (iht : option metric_type_def) : error + metric_definition_impl.t :=
  let d := default (description.make None) d in
  let labels := default [] labels in
  let enabled := default true enabled in
  let instance := default shard instance in
  let iht := default "gauge" iht in
  metric_definition_impl.make malformed
    name instance (metric_type.Build GAUGE iht) (make_function val GAUGE)
    d enabled labels.

Definition make_derive
    (name : metric_name_type) (val : value_source)
    (d : option description.t) (labels : option (list label_instance.t))
    (enabled : option bool) (instance : option instance_id_type)
    (iht : option metric_type_def) : error + metric_definition_impl.t :=
  let d := default (description.make None) d in
  let labels := default [] labels in
  let enabled := default true enabled in
  let instance := default shard instance in
  let iht := default "derive" iht in
  metric_definition_impl.make malformed
    name instance (metric_type.Build DERIVE iht) (make_function val DERIVE)
    d enabled labels.

Definition make_counter
    (name : metric_name_type) (val : value_source)
    (d : option description.t) (labels : option (list label_instance.t))
    (enabled : option bool) (instance : option instance_id_type)
    (iht : option metric_type_def) : error + metric_definition_impl.t :=
  let d := default (description.make None) d in
  let labels := default [] labels in
  let enabled := default true enabled in
  let instance := default shard instance in
  let iht := default "counter" iht in
  metric_definition_impl.make malformed
    name instance (metric_type.Build COUNTER iht) (make_function val COUNTER)
    d enabled labels.

Definition make_absolute
    (name : metric_name_type) (val : value_source)
    (d : option description.t) (labels : option (list label_instance.t))
    (enabled : option bool) (instance : option instance_id_type)
    (iht : option metric_type_def) : error + metric_definition_impl.t :=
  let d := default (description.make None) d in
  let labels := default [] labels in
  let enabled := default true enabled in
  let instance := default shard instance in
  let iht := default "absolute" iht in
  metric_definition_impl.make malformed
    name instance (metric_type.Build ABSOLUTE iht) (make_function val ABSOLUTE)
    d enabled labels.

(** The named flavours; each passes its parameters on to one base factory,
    so every argument of the inner call is given. *)
Definition make_total_bytes
    (name : metric_name_type) (val : value_source)
    (d : option description.t) (enabled : option bool)
    (labels : option (list label_instance.t))
    (instance : option instance_id_type)
    : error + metric_definition_impl.t :=
  let d := default (description.make None) d in
  let labels := default [] labels in
  let enabled := default true enabled in
  let instance := default shard instance in
  make_derive name val (Some d) (Some labels) (Some enabled) (Some instance)
    (Some "total_bytes").

Definition make_current_bytes
    (name : metric_name_type) (val : value_source)
    (d : option description.t) (labels : option (list label_instance.t))
    (enabled : option bool) (instance : option instance_id_type)
    : error + metric_definition_impl.t :=
  let d := default (description.make None) d in
  let labels := default [] labels in
  let enabled := default true enabled in
  let instance := default shard instance in
  make_derive name val (Some d) (Some labels) (Some enabled) (Some instance)
    (Some "bytes").

Definition make_queue_length
    (name : metric_name_type) (val : value_source)
    (d : option description.t) (labels : option (list label_instance.t))
    (enabled : option bool) (instance : option instance_id_type)
    : error + metric_definition_impl.t :=
  let d := default (description.make None) d in
  let labels := default [] labels in
  let enabled := default true enabled in
  let instance := default shard instance in
  make_gauge name val (Some d) (Some labels) (Some enabled) (Some instance)
    (Some "queue_length").

Definition make_total_operations
    (name : metric_name_type) (val : value_source)
    (d : option description.t) (labels : option (list label_instance.t))
    (enabled : option bool) (instance : option instance_id_type)
    : error + metric_definition_impl.t :=
  let d := default (description.make None) d in
  let labels := default [] labels in
  let enabled := default true enabled in
  let instance := default shard instance in
  make_derive name val (Some d) (Some labels) (Some enabled) (Some instance)
    (Some "total_operations").

(** The base factory of a base type. *)
Definition base_factory (dt : data_type) :=
  match dt with
  | GAUGE => make_gauge
  | DERIVE => make_derive
  | COUNTER => make_counter
  | ABSOLUTE => make_absolute
  end.

(** A name the constructor accepts. *)
Definition usable (name : metric_name_type) : Prop :=
  name <> EmptyString /\ malformed name = false.

End Factories.

(** ** A caller of the accessors

    What a component and its collector do with an accessor: call it, and
    assign to the variables in between.  A computation takes the store and
    gives a result and the store after it, or [None] when it touched a
    variable that is not alive. *)

Definition caller (A : Type) : Type := store -> option (A * store).

#[global] Instance caller_ret : MRet caller :=
  fun A x sigma => Some (x, sigma).

#[global] Instance caller_bind : MBind caller :=
  fun A B k m sigma =>
    match m sigma with
    | Some (x, sigma') => k x sigma'
    | None => None
    end.

(** [f()] for a [metric_function] [f]: the returned [metric_value] is a
    value of its own, the store is as it was. *)
Definition call (f : metric_function) : caller metric_value.t :=
  fun sigma => r ← f sigma; Some (r, sigma).

(** [v = x] for the variable at [a]. *)
Definition assign (a : address) (x : fundamental) : caller unit :=
  fun sigma =>
    match (sigma : gmap address fundamental) !! a with
    | Some _ => Some (tt, <[a := x]> sigma)
    | None => None
    end.

(** [r1 = f(); v = x; r2 = f();] and then both results. *)
Definition call_assign_call
    (f : metric_function) (a : address) (x : fundamental)
    : caller (metric_value.t * metric_value.t) :=
  r1 ← call f; _ ← assign a x; r2 ← call f; mret (r1, r2).

(** The member of the union written last is the one the tag names, so the
    value has a payload to read at its tag. *)
Definition tagged_payload (v : metric_value.t) : bool :=
  match metric_value.type v, metric_value.u v with
  | GAUGE, metric_value.u_d _ => true
  | DERIVE, metric_value.u_i _ => true
  | COUNTER, metric_value.u_ui _ => true
  | ABSOLUTE, metric_value.u_ui _ => true
  | _, _ => false
  end.

(** [r] is the snapshot of [x] under the base type [dt]: its tag is [dt]
    and the reader of that type returns [x] converted to the type of the
    member. *)
Definition snapshot_of
    (r : metric_value.t) (x : fundamental) (dt : data_type) : Prop :=
  metric_value.type r = dt
  /\ match dt with
     | GAUGE => metric_value.d r = Some (to_double x)
     | DERIVE => metric_value.i r = Some (to_int64 x)
     | COUNTER | ABSOLUTE => metric_value.ui r = Some (to_uint64 x)
     end.

(** [x] and [x'] convert to the same payload under [dt]. *)
Definition same_payload (x x' : fundamental) (dt : data_type) : Prop :=
  match dt with
  | GAUGE => to_double x = to_double x'
  | DERIVE => to_int64 x = to_int64 x'
  | COUNTER | ABSOLUTE => to_uint64 x = to_uint64 x'
  end.

(** * Properties *)

(** ** Fixed-width integers *)

Lemma two64_pos : 0 < two64.
Proof. reflexivity. Qed.

Lemma two64_two63 : two64 = 2 * two63.
Proof. reflexivity. Qed.

Lemma wrap_u64_range n : in_u64 (wrap_u64 n).
Proof. unfold in_u64, wrap_u64. apply Z.mod_pos_bound, two64_pos. Qed.

Lemma wrap_i64_range n : in_i64 (wrap_i64 n).
Proof.
  unfold in_i64, wrap_i64.
  pose proof (Z.mod_pos_bound (n + two63) two64 two64_pos) as Hb.
  rewrite two64_two63 in *. lia.
Qed.

Lemma wrap_u64_id n : in_u64 n -> wrap_u64 n = n.
Proof. unfold in_u64, wrap_u64. intros Hn. apply Z.mod_small. exact Hn. Qed.

Lemma wrap_i64_id n : in_i64 n -> wrap_i64 n = n.
Proof.
  unfold in_i64, wrap_i64. intros Hn.
  rewrite Z.mod_small; [lia |]. rewrite two64_two63. lia.
Qed.

Lemma to_uint64_range raw : in_u64 (to_uint64 raw).
Proof. destruct raw; apply wrap_u64_range. Qed.

Lemma to_int64_range raw : in_i64 (to_int64 raw).
Proof. destruct raw; apply wrap_i64_range. Qed.

(** ** metric_value *)

Lemma make_tagged_payload raw tag :
  tagged_payload (metric_value.make raw tag) = true.
Proof. destruct tag; reflexivity. Qed.

Lemma make_default_no_payload :
  tagged_payload metric_value.make_default = false.
Proof. reflexivity. Qed.

(** C5: [metric_value(raw, tag)] writes the member of the union that the tag
    selects: the [double] of [raw] for GAUGE, its [uint64_t] (a number below
    2^64) for COUNTER and ABSOLUTE, its [int64_t] (a number from -2^63 up to
    2^63 - 1) for DERIVE; and [type()] of the value is [tag]. *)
Theorem make_stores_by_tag (raw : fundamental) (tag : data_type) :
  let v := metric_value.make raw tag in
  metric_value.type v = tag /\
  match tag with
  | GAUGE =>
      metric_value.u v = metric_value.u_d (to_double raw)
      /\ metric_value.d v = Some (to_double raw)
  | COUNTER | ABSOLUTE =>
      metric_value.u v = metric_value.u_ui (to_uint64 raw)
      /\ metric_value.ui v = Some (to_uint64 raw)
      /\ in_u64 (to_uint64 raw)
  | DERIVE =>
      metric_value.u v = metric_value.u_i (to_int64 raw)
      /\ metric_value.i v = Some (to_int64 raw)
      /\ in_i64 (to_int64 raw)
  end.
Proof.
  cbv zeta. split; [reflexivity |].
  destruct tag; cbn; repeat split;
    first [ apply to_uint64_range | apply to_int64_range ].
Qed.

(** C9: the default constructor sets the tag to GAUGE and writes no member
    of the union, and [type()] returns GAUGE. *)
Theorem make_default_is_gauge :
  metric_value.type metric_value.make_default = GAUGE
  /\ metric_value.u metric_value.make_default = metric_value.u_indeterminate.
Proof. split; reflexivity. Qed.

(** C1: when the tags of [a] and [b] differ, [a + b] is the error
    [TypeMismatch] and no value, and so is [a += b]. *)
Theorem operator_plus_mismatch (a b : metric_value.t) :
  metric_value.type a <> metric_value.type b ->
  metric_value.operator_plus a b = inl TypeMismatch
  /\ (forall r, metric_value.operator_plus a b <> inr r)
  /\ metric_value.operator_plus_assign a b = inl TypeMismatch.
Proof.
  intros Hne.
  assert (Hplus : metric_value.operator_plus a b = inl TypeMismatch).
  { unfold metric_value.operator_plus.
    destruct (decide (metric_value.type a = metric_value.type b)) as [He | _].
    - contradiction.
    - reflexivity. }
  split; [exact Hplus |]. split.
  - intros r Hr. rewrite Hplus in Hr. discriminate Hr.
  - unfold metric_value.operator_plus_assign. rewrite Hplus. reflexivity.
Qed.

Lemma operator_plus_tagged_payload (a b r : metric_value.t) :
  metric_value.operator_plus a b = inr r -> tagged_payload r = true.
Proof.
  unfold metric_value.operator_plus, metric_value.type.
  destruct a as [ua ta], b as [ub tb]; cbn.
  destruct (decide (ta = tb)); [| discriminate].
  destruct ta, ua, ub; intros Hr; inversion Hr; reflexivity.
Qed.

(** C2: for [a] and [b] of one tag, each with a payload at that tag,
    [a + b] is a value of that tag whose payload is the sum of the two
    payloads: the [double] sum for GAUGE, the sum of 64-bit unsigned
    integers for COUNTER and ABSOLUTE, of 64-bit signed integers for DERIVE
    (the sum itself whenever it fits the 64 bits). *)
Theorem operator_plus_same_tag (a b : metric_value.t) :
  metric_value.type a = metric_value.type b ->
  tagged_payload a = true ->
  tagged_payload b = true ->
  exists r,
    metric_value.operator_plus a b = inr r
    /\ metric_value.type r = metric_value.type a
    /\ match metric_value.type a with
       | GAUGE =>
           exists x y,
             metric_value.d a = Some x /\ metric_value.d b = Some y
             /\ metric_value.d r = Some (double_add x y)
       | COUNTER | ABSOLUTE =>
           exists x y,
             metric_value.ui a = Some x /\ metric_value.ui b = Some y
             /\ metric_value.ui r = Some (wrap_u64 (x + y))
             /\ (in_u64 (x + y) -> metric_value.ui r = Some (x + y))
       | DERIVE =>
           exists x y,
             metric_value.i a = Some x /\ metric_value.i b = Some y
             /\ metric_value.i r = Some (wrap_i64 (x + y))
             /\ (in_i64 (x + y) -> metric_value.i r = Some (x + y))
       end.
Proof.
  destruct a as [ua ta], b as [ub tb].
  unfold tagged_payload, metric_value.operator_plus, metric_value.type,
    metric_value.d, metric_value.ui, metric_value.i; cbn.
  intros <- Ha Hb. rewrite decide_True by reflexivity.
  destruct ta, ua; try discriminate Ha; destruct ub; try discriminate Hb;
    eexists; (split; [reflexivity |]); (split; [reflexivity |]); cbn;
    do 2 eexists; repeat (split; [reflexivity |]);
    first [ reflexivity
          | intros Hfit; rewrite wrap_u64_id by exact Hfit; reflexivity
          | intros Hfit; rewrite wrap_i64_id by exact Hfit; reflexivity ].
Qed.

(** The end-to-end example of two shards: derive snapshots 7 and 5 combine
    to the derive value 12, gauge snapshots to the gauge value 12.0. *)
Example operator_plus_two_shards :
  metric_value.operator_plus
    (metric_value.make (unsigned_int 7) DERIVE)
    (metric_value.make (unsigned_int 5) DERIVE)
  = inr (metric_value.make (signed_int 12) DERIVE)
  /\ metric_value.operator_plus
       (metric_value.make (unsigned_int 7) GAUGE)
       (metric_value.make (unsigned_int 5) GAUGE)
     = inr (metric_value.make (signed_int 12) GAUGE).
Proof. split; vm_compute; reflexivity. Qed.

(** ** The order of sstring *)

Lemma ascii_compare_refl (c : ascii) : Ascii.compare c c = Eq.
Proof. unfold Ascii.compare. apply N.compare_refl. Qed.

Lemma ascii_compare_lt_trans (a b c : ascii) :
  Ascii.compare a b = Lt -> Ascii.compare b c = Lt -> Ascii.compare a c = Lt.
Proof.
  unfold Ascii.compare. rewrite !N.compare_lt_iff. apply N.lt_trans.
Qed.

Lemma string_compare_refl (s : string) : String.compare s s = Eq.
Proof.
  induction s as [| c s IH]; cbn; [reflexivity |].
  rewrite ascii_compare_refl. exact IH.
Qed.

Lemma string_compare_lt_trans (a b c : string) :
  String.compare a b = Lt -> String.compare b c = Lt -> String.compare a c = Lt.
Proof.
  revert b c. induction a as [| x a IH]; intros [| y b] [| z c]; cbn;
    try discriminate; try reflexivity.
  destruct (Ascii.compare x y) eqn:Hxy; try discriminate.
  - apply Ascii.compare_eq_iff in Hxy. subst y.
    destruct (Ascii.compare x z); try discriminate; [| reflexivity].
    apply IH.
  - intros _. destruct (Ascii.compare y z) eqn:Hyz; try discriminate.
    + apply Ascii.compare_eq_iff in Hyz. subst z. rewrite Hxy. reflexivity.
    + rewrite (ascii_compare_lt_trans _ _ _ Hxy Hyz). reflexivity.
Qed.

Lemma sstring_lt_irrefl (a : sstring) : sstring_lt a a = false.
Proof. unfold sstring_lt. rewrite string_compare_refl. reflexivity. Qed.

Lemma sstring_lt_trans (a b c : sstring) :
  sstring_lt a b = true -> sstring_lt b c = true -> sstring_lt a c = true.
Proof.
  unfold sstring_lt. intros Hab Hbc.
  destruct (String.compare a b) eqn:Eab; try discriminate.
  destruct (String.compare b c) eqn:Ebc; try discriminate.
  rewrite (string_compare_lt_trans _ _ _ Eab Ebc). reflexivity.
Qed.

Lemma sstring_lt_total (a b : sstring) :
  sstring_lt a b = false -> sstring_lt b a = false -> a = b.
Proof.
  unfold sstring_lt. intros Hab Hba.
  apply String.compare_eq_iff.
  rewrite String.compare_antisym in Hab.
  destruct (String.compare b a) eqn:Eba; cbn in *; try discriminate.
  rewrite String.compare_antisym, Eba. reflexivity.
Qed.

Lemma sstring_lt_asym (a b : sstring) :
  sstring_lt a b = true -> sstring_lt b a = false.
Proof.
  intros Hab. destruct (sstring_lt b a) eqn:Hba; [| reflexivity].
  pose proof (sstring_lt_trans _ _ _ Hab Hba) as Haa.
  rewrite sstring_lt_irrefl in Haa. discriminate Haa.
Qed.

(** ** Labels *)

Lemma label_instance_eta (a : label_instance.t) :
  a = label_instance.Build (label_instance.key a) (label_instance.value a).
Proof. destruct a; reflexivity. Qed.

Lemma op_eq_iff (a b : label_instance.t) :
  label_instance.op_eq a b = true <-> a = b.
Proof.
  unfold label_instance.op_eq.
  rewrite andb_true_iff, !bool_decide_eq_true. split.
  - intros [Hk Hv]. rewrite (label_instance_eta a), (label_instance_eta b).
    rewrite Hk, Hv. reflexivity.
  - intros ->. split; reflexivity.
Qed.

Lemma op_lt_iff (a b : label_instance.t) :
  label_instance.op_lt a b = true <->
  sstring_lt (label_instance.key a) (label_instance.key b) = true
  \/ (label_instance.key a = label_instance.key b
      /\ sstring_lt (label_instance.value a) (label_instance.value b) = true).
Proof.
  unfold label_instance.op_lt.
  rewrite orb_true_iff, andb_true_iff, bool_decide_eq_true. reflexivity.
Qed.

Lemma op_lt_irrefl (a : label_instance.t) : label_instance.op_lt a a = false.
Proof.
  apply not_true_is_false. rewrite op_lt_iff.
  rewrite !sstring_lt_irrefl. intros [H | [_ H]]; discriminate H.
Qed.

Lemma op_lt_trans (a b c : label_instance.t) :
  label_instance.op_lt a b = true -> label_instance.op_lt b c = true ->
  label_instance.op_lt a c = true.
Proof.
  rewrite !op_lt_iff. intros [Hab | [Kab Vab]] [Hbc | [Kbc Vbc]].
  - left. eapply sstring_lt_trans; eassumption.
  - left. rewrite <- Kbc. exact Hab.
  - left. rewrite Kab. exact Hbc.
  - right. split; [congruence |]. eapply sstring_lt_trans; eassumption.
Qed.

Lemma op_lt_total (a b : label_instance.t) :
  label_instance.op_lt a b = false -> label_instance.op_lt b a = false ->
  label_instance.op_eq a b = true.
Proof.
  unfold label_instance.op_lt, label_instance.op_eq.
  rewrite !orb_false_iff, !andb_false_iff, !bool_decide_eq_false.
  intros [Kab Hab] [Kba Hba].
  assert (Hk : label_instance.key a = label_instance.key b)
    by (apply sstring_lt_total; assumption).
  destruct Hab as [Hab | Vab]; [contradiction |].
  destruct Hba as [Hba | Vba]; [symmetry in Hk; contradiction |].
  rewrite andb_true_iff, !bool_decide_eq_true. split; [exact Hk |].
  apply sstring_lt_total; assumption.
Qed.

Lemma op_lt_asym (a b : label_instance.t) :
  label_instance.op_lt a b = true ->
  label_instance.op_lt b a = false /\ label_instance.op_eq a b = false.
Proof.
  intros Hab. split.
  - destruct (label_instance.op_lt b a) eqn:Hba; [| reflexivity].
    pose proof (op_lt_trans _ _ _ Hab Hba) as Haa.
    rewrite op_lt_irrefl in Haa. discriminate Haa.
  - destruct (label_instance.op_eq a b) eqn:He; [| reflexivity].
    apply op_eq_iff in He. subst b.
    rewrite op_lt_irrefl in Hab. discriminate Hab.
Qed.

(** *** The text of a value *)

Lemma to_int_not_nil (n : Z) :
  Z.to_int n <> Decimal.Pos Decimal.Nil /\ Z.to_int n <> Decimal.Neg Decimal.Nil.
Proof.
  destruct n as [| p | p]; cbn; split; try discriminate;
    intros H; inversion H as [Hp]; exact (Unsigned.to_uint_nonnil p Hp).
Qed.

(** Reading the decimal numeral of [n] gives [n] back. *)
Lemma decimal_read (n : Z) :
  NilZero.int_of_string (decimal n) = Some (Z.to_int n).
Proof.
  destruct (to_int_not_nil n) as [H1 H2]. exact (NilZero.isi _ H1 H2).
Qed.

Lemma decimal_inj (n m : Z) : decimal n = decimal m -> n = m.
Proof.
  intros He. apply DecimalZ.to_int_inj.
  pose proof (decimal_read n) as Hn. rewrite He, decimal_read in Hn.
  inversion Hn. reflexivity.
Qed.

Lemma string_of_uint_nonempty (d : Decimal.uint) :
  NilZero.string_of_uint d <> EmptyString.
Proof. destruct d; discriminate. Qed.

Lemma decimal_nonempty (n : Z) : decimal n <> EmptyString.
Proof.
  unfold decimal. destruct (Z.to_int n) as [d | d]; cbn.
  - apply string_of_uint_nonempty.
  - discriminate.
Qed.

Lemma append_nonempty_l (a b : string) :
  a <> EmptyString -> (a ++ b)%string <> EmptyString.
Proof. destruct a; [contradiction | discriminate]. Qed.

Lemma append_nonempty_r (a b : string) :
  b <> EmptyString -> (a ++ b)%string <> EmptyString.
Proof. destruct a; [intros H; exact H | discriminate]. Qed.

Lemma with_point_nonempty (int frac : sstring) :
  int <> EmptyString -> with_point int frac <> EmptyString.
Proof.
  intros Hi. unfold with_point. destruct (strip_zeros frac).
  - exact Hi.
  - apply append_nonempty_l. exact Hi.
Qed.

Lemma substring_head_nonempty (n : nat) (s : string) :
  s <> EmptyString -> substring 0 (S n) s <> EmptyString.
Proof. destruct s; [contradiction | discriminate]. Qed.

Lemma print_g_finite_nonempty (p : Z) (m : positive) (e : Z) :
  print_g_finite p m e <> EmptyString.
Proof.
  unfold print_g_finite. cbv zeta.
  set (num := match e with Zpos _ => Zpos m * 2 ^ e | _ => Zpos m end).
  set (den := match e with Zneg q => 2 ^ Zpos q | _ => 1 end).
  set (x0 := decimal_exponent num den).
  set (d0 := scaled num den (p - 1 - x0)).
  set (x := if Z.eqb d0 (10 ^ p) then x0 + 1 else x0).
  set (ds := decimal (if Z.eqb d0 (10 ^ p) then 10 ^ (p - 1) else d0)).
  destruct (Z.ltb x (-4) || Z.leb p x).
  - apply append_nonempty_r. discriminate.
  - destruct (Z.ltb_spec x 0) as [Hx | Hx].
    + apply with_point_nonempty. discriminate.
    + apply with_point_nonempty.
      replace (Z.to_nat (x + 1)) with (S (Z.to_nat x)) by lia.
      apply substring_head_nonempty, decimal_nonempty.
Qed.

Lemma print_g_nonempty (p : Z) (x : double) : print_g p x <> EmptyString.
Proof.
  destruct x as [s | s | | s m e]; cbn [print_g].
  - apply append_nonempty_r. discriminate.
  - apply append_nonempty_r. discriminate.
  - discriminate.
  - apply append_nonempty_r, print_g_finite_nonempty.
Qed.

(** Only the empty text has an empty conversion. *)
Lemma lexical_cast_empty_iff (v : streamable) :
  lexical_cast v = EmptyString <-> v = text EmptyString.
Proof.
  split; [| intros ->; reflexivity].
  destruct v as [s | n | b | c | x | x]; cbn [lexical_cast]; intros He.
  - rewrite He. reflexivity.
  - exfalso. exact (decimal_nonempty n He).
  - destruct b; discriminate He.
  - discriminate He.
  - exfalso. exact (print_g_nonempty _ _ He).
  - exfalso. exact (print_g_nonempty _ _ He).
Qed.

(** C7: two label instances are equal exactly when their (key, value) pairs
    are, [operator!=] is the negation, [operator<] is the lexicographic
    order of the pairs (a strict total order: of [a < b], [a == b] and
    [b < a] exactly one holds).  The conversion of the value gives a string
    for every input, determined by the input: the text itself, the decimal
    numeral that reads back as the integer, 0 or 1 for a [bool], the
    character itself, the 9- or 17-digit decimal of a floating-point value;
    it is empty only for the empty text, and equal inputs give equal
    strings and equal instances. *)
Theorem label_instance_equality_order_conversion :
  (forall a b,
      label_instance.op_eq a b = true <->
      (label_instance.key a, label_instance.value a)
      = (label_instance.key b, label_instance.value b))
  /\ (forall a b,
         label_instance.op_ne a b = true <->
         (label_instance.key a, label_instance.value a)
         <> (label_instance.key b, label_instance.value b))
  /\ (forall a b,
         label_instance.op_lt a b = true <->
         sstring_lt (label_instance.key a) (label_instance.key b) = true
         \/ (label_instance.key a = label_instance.key b
             /\ sstring_lt (label_instance.value a) (label_instance.value b)
                = true))
  /\ (forall a, label_instance.op_lt a a = false)
  /\ (forall a b c,
         label_instance.op_lt a b = true -> label_instance.op_lt b c = true ->
         label_instance.op_lt a c = true)
  /\ (forall a b,
         label_instance.op_lt a b = false -> label_instance.op_lt b a = false ->
         label_instance.op_eq a b = true)
  /\ (forall a b,
         label_instance.op_lt a b = true ->
         label_instance.op_lt b a = false /\ label_instance.op_eq a b = false)
  /\ (forall k v,
         exists s,
           lexical_cast v = s
           /\ label.call (label.make k) v = label_instance.Build k s
           /\ label_instance.make k v = label_instance.Build k s
           /\ label_instance.key (label_instance.make k v) = k
           /\ label_instance.value (label_instance.make k v) = s
           /\ (s = EmptyString <-> v = text EmptyString)
           /\ match v with
              | text t => s = t
              | integer n =>
                  NilZero.int_of_string s = Some (Z.to_int n)
                  /\ Z.of_int (Z.to_int n) = n
              | boolean b => s = if b then "1" else "0"
              | character c => s = String c EmptyString
              | single x => s = print_g 9 x
              | floating_point x => s = print_g 17 x
              end)
  /\ (forall k1 k2 v1 v2,
         k1 = k2 -> v1 = v2 ->
         lexical_cast v1 = lexical_cast v2
         /\ label_instance.op_eq
              (label_instance.make k1 v1) (label_instance.make k2 v2) = true)
  /\ (forall k1 k2 v1 v2,
         label_instance.op_eq
           (label_instance.make k1 v1) (label_instance.make k2 v2) = true
         <-> k1 = k2 /\ lexical_cast v1 = lexical_cast v2).
Proof.
  assert (Hpair : forall a b,
             label_instance.op_eq a b = true <->
             (label_instance.key a, label_instance.value a)
             = (label_instance.key b, label_instance.value b)).
  { intros a b. rewrite op_eq_iff. split.
    - intros ->. reflexivity.
    - intros Hp. inversion Hp as [[Hk Hv]].
      rewrite (label_instance_eta a), (label_instance_eta b), Hk, Hv.
      reflexivity. }
  split; [exact Hpair |]. split.
  { intros a b. unfold label_instance.op_ne.
    rewrite negb_true_iff, <- not_true_iff_false, Hpair. reflexivity. }
  split; [exact op_lt_iff |].
  split; [exact op_lt_irrefl |].
  split; [exact op_lt_trans |].
  split; [exact op_lt_total |].
  split; [exact op_lt_asym |].
  split; [| split].
  - intros k v. exists (lexical_cast v).
    do 5 (split; [reflexivity |]).
    split; [apply lexical_cast_empty_iff |].
    destruct v as [t | n | b | c | x | x]; cbn [lexical_cast];
      try reflexivity.
    split; [apply decimal_read | apply DecimalZ.of_to].
  - intros k1 k2 v1 v2 -> ->. split; [reflexivity |].
    apply op_eq_iff. reflexivity.
  - intros k1 k2 v1 v2. rewrite Hpair. cbn. split.
    + intros Hp. inversion Hp. split; reflexivity || assumption.
    + intros [-> ->]. reflexivity.
Qed.

Example lexical_cast_examples :
  label_instance.make "smp_queue" (integer 1)
  = label_instance.Build "smp_queue" "1"
  /\ label_instance.make "my_key" (text "my_value")
     = label_instance.Build "my_key" "my_value"
  /\ label_instance.make "internal_id" (integer (-1))
     = label_instance.Build "internal_id" "-1"
  /\ lexical_cast (character (char_of_code 65)) = "A"
  /\ lexical_cast (boolean true) = "1"
  /\ lexical_cast (floating_point (double_of_Z 10)) = "10"
  /\ lexical_cast (floating_point (S754_finite false 3 (-1))) = "1.5"
  /\ lexical_cast (floating_point (S754_finite false 7205759403792794 (-56)))
     = "0.10000000000000001"
  /\ lexical_cast (single (S754_finite false 13421773 (-27))) = "0.100000001"
  /\ lexical_cast (floating_point (S754_finite false 5960464477539062 24))
     = "9.9999999999999992e+22"
  /\ lexical_cast (floating_point (S754_finite false 1 (-1074)))
     = "4.9406564584124654e-324"
  /\ lexical_cast (floating_point (S754_finite true 5 (-1))) = "-2.5"
  /\ lexical_cast (floating_point (S754_infinity true)) = "-inf".
Proof. repeat split; vm_compute; reflexivity. Qed.

(** ** Definitions and factories *)

Section FactoryProperties.

Variable malformed : metric_name_type -> bool.
Variable shard : instance_id_type.

Lemma make_usable name id type f d enabled labels :
  usable malformed name ->
  metric_definition_impl.make malformed name id type f d enabled labels
  = inr (metric_definition_impl.Build name id type f d enabled
           (metric_definition_impl.labels_of labels)).
Proof.
  intros [Hne Hm]. unfold metric_definition_impl.make.
  rewrite bool_decide_eq_false_2 by exact Hne. rewrite Hm. reflexivity.
Qed.

Lemma make_unusable name id type f d enabled labels :
  ~ usable malformed name ->
  metric_definition_impl.make malformed name id type f d enabled labels
  = inl InvalidDefinition.
Proof.
  intros Hn. unfold metric_definition_impl.make.
  destruct (bool_decide (name = EmptyString)) eqn:He; [reflexivity |].
  destruct (malformed name) eqn:Hm; [reflexivity |].
  exfalso. apply Hn. split; [| exact Hm].
  apply bool_decide_eq_false in He. exact He.
Qed.

Lemma usable_dec name : usable malformed name \/ ~ usable malformed name.
Proof.
  unfold usable. destruct (decide (name = EmptyString)) as [-> | Hne].
  - right. intros [H _]. apply H. reflexivity.
  - destruct (malformed name); [right | left].
    + intros [_ H]. discriminate H.
    + split; [exact Hne | reflexivity].
Qed.

Lemma make_inr_inv name id type f d enabled labels def :
  metric_definition_impl.make malformed name id type f d enabled labels
  = inr def ->
  usable malformed name
  /\ def = metric_definition_impl.Build name id type f d enabled
             (metric_definition_impl.labels_of labels).
Proof.
  intros Hd. destruct (usable_dec name) as [Hu | Hu].
  - split; [exact Hu |]. rewrite make_usable in Hd by exact Hu.
    inversion Hd. reflexivity.
  - rewrite make_unusable in Hd by exact Hu. discriminate Hd.
Qed.

(** C6: with an empty or malformed name the constructor fails with
    [InvalidDefinition] and produces no definition, and so does each factory,
    which constructs its result from that name. *)
Theorem unusable_name_fails (name : metric_name_type) :
  name = EmptyString \/ malformed name = true ->
  (forall id type f d enabled labels,
      metric_definition_impl.make malformed name id type f d enabled labels
      = inl InvalidDefinition
      /\ forall def,
          metric_definition_impl.make malformed name id type f d enabled labels
          <> inr def)
  /\ (forall val d labels enabled instance iht,
         make_gauge malformed shard name val d labels enabled instance iht
         = inl InvalidDefinition
         /\ make_derive malformed shard name val d labels enabled instance iht
            = inl InvalidDefinition
         /\ make_counter malformed shard name val d labels enabled instance iht
            = inl InvalidDefinition
         /\ make_absolute malformed shard name val d labels enabled instance iht
            = inl InvalidDefinition)
  /\ (forall val d labels enabled instance,
         make_total_bytes malformed shard name val d enabled labels instance
         = inl InvalidDefinition
         /\ make_current_bytes malformed shard name val d labels enabled instance
            = inl InvalidDefinition
         /\ make_queue_length malformed shard name val d labels enabled instance
            = inl InvalidDefinition
         /\ make_total_operations malformed shard name val d labels enabled
              instance
            = inl InvalidDefinition).
Proof.
  intros Hbad.
  assert (Hn : ~ usable malformed name).
  { intros [Hne Hm]. destruct Hbad as [He | Hb]; [contradiction | congruence]. }
  split; [| split].
  - intros id type f d enabled labels.
    rewrite (make_unusable _ _ _ _ _ _ _ Hn). split; [reflexivity |].
    intros def Hd. discriminate Hd.
  - intros val d labels enabled instance iht.
    unfold make_gauge, make_derive, make_counter, make_absolute.
    repeat split; apply make_unusable; exact Hn.
  - intros val d labels enabled instance.
    unfold make_total_bytes, make_current_bytes, make_queue_length,
      make_total_operations, make_gauge, make_derive.
    repeat split; apply make_unusable; exact Hn.
Qed.

(** C8: a base factory called without the enabled flag, the instance id
    and the flavour returns a definition that is enabled, whose instance id
    is the shard of the caller and whose flavour is the name of the base
    type. *)
Theorem base_factory_defaults
    (name : metric_name_type) (val : value_source)
    (d : option description.t) (labels : option (list label_instance.t)) :
  usable malformed name ->
  (exists def,
      make_gauge malformed shard name val d labels None None None = inr def
      /\ metric_definition_impl.enabled def = true
      /\ metric_definition_impl.id def = shard
      /\ metric_type.type_name (metric_definition_impl.type def) = "gauge"
      /\ metric_type.base_type (metric_definition_impl.type def) = GAUGE)
  /\ (exists def,
         make_counter malformed shard name val d labels None None None = inr def
         /\ metric_definition_impl.enabled def = true
         /\ metric_definition_impl.id def = shard
         /\ metric_type.type_name (metric_definition_impl.type def) = "counter"
         /\ metric_type.base_type (metric_definition_impl.type def) = COUNTER)
  /\ (exists def,
         make_derive malformed shard name val d labels None None None = inr def
         /\ metric_definition_impl.enabled def = true
         /\ metric_definition_impl.id def = shard
         /\ metric_type.type_name (metric_definition_impl.type def) = "derive"
         /\ metric_type.base_type (metric_definition_impl.type def) = DERIVE)
  /\ (exists def,
         make_absolute malformed shard name val d labels None None None
         = inr def
         /\ metric_definition_impl.enabled def = true
         /\ metric_definition_impl.id def = shard
         /\ metric_type.type_name (metric_definition_impl.type def)
            = "absolute"
         /\ metric_type.base_type (metric_definition_impl.type def) = ABSOLUTE).
Proof.
  intros Hu.
  unfold make_gauge, make_counter, make_derive, make_absolute; cbn zeta.
  rewrite !(make_usable _ _ _ _ _ _ _ Hu).
  repeat split; eexists; (split; [reflexivity |]); repeat split.
Qed.

Lemma make_gauge_inr name val d labels enabled instance iht def :
  make_gauge malformed shard name val d labels enabled instance iht = inr def ->
  metric_definition_impl.type def = metric_type.Build GAUGE (default "gauge" iht).
Proof.
  unfold make_gauge; cbn zeta. intros Hd.
  apply make_inr_inv in Hd as [_ ->]. reflexivity.
Qed.

Lemma make_derive_inr name val d labels enabled instance iht def :
  make_derive malformed shard name val d labels enabled instance iht = inr def ->
  metric_definition_impl.type def
  = metric_type.Build DERIVE (default "derive" iht).
Proof.
  unfold make_derive; cbn zeta. intros Hd.
  apply make_inr_inv in Hd as [_ ->]. reflexivity.
Qed.

(** C4: for a usable name, whatever the other arguments,
    [make_queue_length] returns a definition of base type GAUGE and
    [make_total_bytes], [make_current_bytes] and [make_total_operations]
    one of base type DERIVE; a definition returned by one of them never has
    another base type, each being one call of a base factory with a fixed
    flavour. *)
Theorem named_flavours_base_type
    (name : metric_name_type) (val : value_source)
    (d : option description.t) (labels : option (list label_instance.t))
    (enabled : option bool) (instance : option instance_id_type) :
  usable malformed name ->
  let base def := metric_type.base_type (metric_definition_impl.type def) in
  let d' := Some (default (description.make None) d) in
  let labels' := Some (default [] labels) in
  let enabled' := Some (default true enabled) in
  let instance' := Some (default shard instance) in
  ((exists def,
       make_queue_length malformed shard name val d labels enabled instance
       = inr def /\ base def = GAUGE)
   /\ (exists def,
          make_total_bytes malformed shard name val d enabled labels instance
          = inr def /\ base def = DERIVE)
   /\ (exists def,
          make_current_bytes malformed shard name val d labels enabled instance
          = inr def /\ base def = DERIVE)
   /\ (exists def,
          make_total_operations malformed shard name val d labels enabled
            instance
          = inr def /\ base def = DERIVE))
  /\ (forall def,
         (make_queue_length malformed shard name val d labels enabled instance
          = inr def -> base def = GAUGE)
         /\ (make_total_bytes malformed shard name val d enabled labels instance
             = inr def -> base def = DERIVE)
         /\ (make_current_bytes malformed shard name val d labels enabled
               instance
             = inr def -> base def = DERIVE)
         /\ (make_total_operations malformed shard name val d labels enabled
               instance
             = inr def -> base def = DERIVE))
  /\ (make_queue_length malformed shard name val d labels enabled instance
      = make_gauge malformed shard name val d' labels' enabled' instance'
          (Some "queue_length")
      /\ make_total_bytes malformed shard name val d enabled labels instance
         = make_derive malformed shard name val d' labels' enabled' instance'
             (Some "total_bytes")
      /\ make_current_bytes malformed shard name val d labels enabled instance
         = make_derive malformed shard name val d' labels' enabled' instance'
             (Some "bytes")
      /\ make_total_operations malformed shard name val d labels enabled
           instance
         = make_derive malformed shard name val d' labels' enabled' instance'
             (Some "total_operations")).
Proof.
  intros Hu. cbv zeta. split; [| split].
  - unfold make_queue_length, make_total_bytes, make_current_bytes,
      make_total_operations, make_gauge, make_derive; cbn zeta.
    rewrite !(make_usable _ _ _ _ _ _ _ Hu).
    repeat split; eexists; (split; [reflexivity |]); reflexivity.
  - intros def.
    unfold make_queue_length, make_total_bytes, make_current_bytes,
      make_total_operations; cbn zeta.
    repeat split; intros Hd.
    + apply make_gauge_inr in Hd. rewrite Hd. reflexivity.
    + apply make_derive_inr in Hd. rewrite Hd. reflexivity.
    + apply make_derive_inr in Hd. rewrite Hd. reflexivity.
    + apply make_derive_inr in Hd. rewrite Hd. reflexivity.
  - repeat split.
Qed.

(** C10: [make_current_bytes] is [make_derive] with the flavour "bytes" (and
    not "current_bytes"); [make_total_bytes], [make_total_operations] and
    [make_queue_length] pass the flavours "total_bytes", "total_operations"
    and "queue_length" on; and [make_total_bytes] takes the enabled flag
    before the label list, where the other factories take the label list
    first. *)
Theorem named_flavours_forwarding
    (name : metric_name_type) (val : value_source)
    (d : option description.t) (labels : option (list label_instance.t))
    (enabled : option bool) (instance : option instance_id_type) :
  let flavour def := metric_type.type_name (metric_definition_impl.type def) in
  let d' := Some (default (description.make None) d) in
  let labels' := Some (default [] labels) in
  let enabled' := Some (default true enabled) in
  let instance' := Some (default shard instance) in
  (make_current_bytes malformed shard name val d labels enabled instance
   = make_derive malformed shard name val d' labels' enabled' instance'
       (Some "bytes")
   /\ make_total_bytes malformed shard name val d enabled labels instance
      = make_derive malformed shard name val d' labels' enabled' instance'
          (Some "total_bytes")
   /\ make_total_operations malformed shard name val d labels enabled instance
      = make_derive malformed shard name val d' labels' enabled' instance'
          (Some "total_operations")
   /\ make_queue_length malformed shard name val d labels enabled instance
      = make_gauge malformed shard name val d' labels' enabled' instance'
          (Some "queue_length"))
  /\ (forall def,
         (make_current_bytes malformed shard name val d labels enabled instance
          = inr def -> flavour def = "bytes" /\ flavour def <> "current_bytes")
         /\ (make_total_bytes malformed shard name val d enabled labels instance
             = inr def -> flavour def = "total_bytes")
         /\ (make_total_operations malformed shard name val d labels enabled
               instance
             = inr def -> flavour def = "total_operations")
         /\ (make_queue_length malformed shard name val d labels enabled
               instance
             = inr def -> flavour def = "queue_length")).
Proof.
  cbv zeta. split; [repeat split |].
  intros def.
  unfold make_current_bytes, make_total_bytes, make_total_operations,
    make_queue_length; cbn zeta.
  split; [| split; [| split]]; intros Hd;
    first [ apply make_derive_inr in Hd | apply make_gauge_inr in Hd ];
    rewrite Hd; cbn; [| reflexivity ..].
  split; [reflexivity | discriminate].
Qed.

(** The overload of [make_function] that applies is the one [is_callable]
    enables. *)
Lemma make_function_overload (val : value_source) (dt : data_type) :
  if is_callable val
  then exists g, val = callable g
                 /\ make_function val dt = make_function_callable g dt
  else exists a, val = variable a
                 /\ make_function val dt = make_function_reference a dt.
Proof. destruct val as [g | a]; cbn; eexists; split; reflexivity. Qed.

Lemma base_factory_usable dt name val d labels enabled instance iht :
  usable malformed name ->
  exists def,
    base_factory malformed shard dt name val d labels enabled instance iht
    = inr def
    /\ metric_type.base_type (metric_definition_impl.type def) = dt
    /\ metric_definition_impl.f def = make_function val dt.
Proof.
  intros Hu.
  destruct dt; unfold base_factory, make_gauge, make_derive, make_counter,
    make_absolute; cbn zeta; rewrite (make_usable _ _ _ _ _ _ _ Hu);
    eexists; repeat split.
Qed.

Lemma call_assign_call_reads
    (f : metric_function) (dt : data_type) (v : address)
    (sigma : store) (x x' : fundamental) :
  (forall s y, (s : gmap address fundamental) !! v = Some y ->
               f s = Some (metric_value.make y dt)) ->
  (sigma : gmap address fundamental) !! v = Some x ->
  call_assign_call f v x' sigma
  = Some ((metric_value.make x dt, metric_value.make x' dt), <[v := x']> sigma).
Proof.
  intros Hf Hx.
  unfold call_assign_call, call, assign, mbind, caller_bind, mret, caller_ret.
  rewrite (Hf sigma x Hx). cbn. rewrite Hx.
  rewrite (Hf (<[v := x']> sigma) x').
  - reflexivity.
  - apply lookup_insert_eq.
Qed.

Lemma make_snapshot_of (x : fundamental) (dt : data_type) :
  snapshot_of (metric_value.make x dt) x dt.
Proof. split; [reflexivity |]. destruct dt; reflexivity. Qed.

Lemma make_eq_iff (x x' : fundamental) (dt : data_type) :
  metric_value.make x dt = metric_value.make x' dt <-> same_payload x x' dt.
Proof.
  unfold same_payload, metric_value.make.
  destruct dt; split; intros He;
    first [ injection He as He; exact He | rewrite He; reflexivity ].
Qed.

(** C3, as amended: for a variable [v] holding [x] and a function [g] that
    returns what [v] holds, the definitions a base factory builds over [v]
    and over [g] both have an accessor that returns the snapshot of [x]:
    the base type of the factory as tag and, read through the reader of that
    type, [x] converted to it.  When [v] is assigned [x'] between two calls,
    the first result is still the snapshot of [x] and the second is the
    snapshot of [x']; the two are the same value exactly when [x] and [x']
    convert to the same payload. *)
Theorem accessor_reads_current_value
    (dt : data_type) (name : metric_name_type)
    (v : address) (g : store -> option fundamental)
    (d : option description.t) (labels : option (list label_instance.t))
    (enabled : option bool) (instance : option instance_id_type)
    (iht : option metric_type_def)
    (sigma : store) (x : fundamental) :
  usable malformed name ->
  (forall s, g s = (s : gmap address fundamental) !! v) ->
  (sigma : gmap address fundamental) !! v = Some x ->
  exists dv dg,
    base_factory malformed shard dt name (variable v) d labels enabled
      instance iht = inr dv
    /\ base_factory malformed shard dt name (callable g) d labels enabled
         instance iht = inr dg
    /\ (exists r,
           metric_definition_impl.f dv sigma = Some r
           /\ metric_definition_impl.f dg sigma = Some r
           /\ snapshot_of r x dt)
    /\ forall x',
        exists r1 r2,
          call_assign_call (metric_definition_impl.f dv) v x' sigma
          = Some ((r1, r2), <[v := x']> sigma)
          /\ call_assign_call (metric_definition_impl.f dg) v x' sigma
             = Some ((r1, r2), <[v := x']> sigma)
          /\ snapshot_of r1 x dt
          /\ snapshot_of r2 x' dt
          /\ (r2 = r1 <-> same_payload x' x dt).
Proof.
  intros Hu Hg Hx.
  destruct (base_factory_usable dt name (variable v) d labels enabled
              instance iht Hu) as (dv & Hdv & _ & Hfv).
  destruct (base_factory_usable dt name (callable g) d labels enabled
              instance iht Hu) as (dg & Hdg & _ & Hfg).
  assert (Hv : forall s y, (s : gmap address fundamental) !! v = Some y ->
                           metric_definition_impl.f dv s
                           = Some (metric_value.make y dt)).
  { intros s y Hy. rewrite Hfv. cbn. unfold make_function_reference, store.
    rewrite Hy. reflexivity. }
  assert (Hc : forall s y, (s : gmap address fundamental) !! v = Some y ->
                           metric_definition_impl.f dg s
                           = Some (metric_value.make y dt)).
  { intros s y Hy. rewrite Hfg. cbn. unfold make_function_callable, store.
    rewrite Hg, Hy. reflexivity. }
  exists dv, dg.
  split; [exact Hdv |]. split; [exact Hdg |]. split.
  - exists (metric_value.make x dt).
    split; [apply Hv, Hx |]. split; [apply Hc, Hx |].
    apply make_snapshot_of.
  - intros x'.
    exists (metric_value.make x dt), (metric_value.make x' dt).
    split; [apply call_assign_call_reads; assumption |].
    split; [apply call_assign_call_reads; assumption |].
    split; [apply make_snapshot_of |].
    split; [apply make_snapshot_of |].
    apply make_eq_iff.
Qed.

End FactoryProperties.

(** ** Concrete instances *)

(** The end-to-end example of a gauge over a variable: bound to a variable
    that holds 10 the accessor returns the gauge value 10.0, and after the
    variable is set to 42 it returns the gauge value 42.0. *)
Example gauge_bytes_used :
  exists def,
    make_gauge (fun _ => false) "0" "bytes.used" (variable 1%positive)
      None None None None None = inr def
    /\ call_assign_call (metric_definition_impl.f def) 1%positive
         (signed_int 42) {[ 1%positive := signed_int 10 ]}
       = Some ((metric_value.Build
                  (metric_value.u_d (S754_finite false 5629499534213120 (-49)))
                  GAUGE,
                metric_value.Build
                  (metric_value.u_d (S754_finite false 5910974510923776 (-47)))
                  GAUGE),
               {[ 1%positive := signed_int 42 ]}).
Proof.
  eexists. split; [reflexivity |].
  cbn -[call_assign_call].
  rewrite (call_assign_call_reads _ GAUGE 1%positive _ (signed_int 10)).
  - vm_compute. reflexivity.
  - intros s y Hy. unfold make_function_reference, store. rewrite Hy.
    reflexivity.
  - apply lookup_singleton_eq.
Qed.

Lemma operator_plus_mismatch_witness :
  metric_value.type (metric_value.make (unsigned_int 7) COUNTER)
  <> metric_value.type (metric_value.make (signed_int 5) DERIVE)
  /\ (metric_value.operator_plus
        (metric_value.make (unsigned_int 7) COUNTER)
        (metric_value.make (signed_int 5) DERIVE) = inl TypeMismatch
      /\ (forall r,
             metric_value.operator_plus
               (metric_value.make (unsigned_int 7) COUNTER)
               (metric_value.make (signed_int 5) DERIVE) <> inr r)
      /\ metric_value.operator_plus_assign
           (metric_value.make (unsigned_int 7) COUNTER)
           (metric_value.make (signed_int 5) DERIVE) = inl TypeMismatch).
Proof.
  assert (Hne : metric_value.type (metric_value.make (unsigned_int 7) COUNTER)
                <> metric_value.type (metric_value.make (signed_int 5) DERIVE))
    by (cbn; discriminate).
  split; [exact Hne |].
  exact (operator_plus_mismatch _ _ Hne).
Defined.

Lemma operator_plus_same_tag_witness :
  exists r,
    metric_value.operator_plus
      (metric_value.make (signed_int 7) DERIVE)
      (metric_value.make (signed_int 5) DERIVE) = inr r
    /\ metric_value.type r = DERIVE
    /\ exists x y,
        metric_value.i (metric_value.make (signed_int 7) DERIVE) = Some x
        /\ metric_value.i (metric_value.make (signed_int 5) DERIVE) = Some y
        /\ metric_value.i r = Some (wrap_i64 (x + y))
        /\ (in_i64 (x + y) -> metric_value.i r = Some (x + y)).
Proof.
  exact (operator_plus_same_tag
           (metric_value.make (signed_int 7) DERIVE)
           (metric_value.make (signed_int 5) DERIVE)
           eq_refl eq_refl eq_refl).
Defined.

Lemma unusable_name_fails_witness :
  (EmptyString = EmptyString \/ (fun _ : metric_name_type => false) EmptyString = true)
  /\ metric_definition_impl.make (fun _ => false) EmptyString
       "0" (metric_type.Build GAUGE "gauge")
       (make_function (variable 1%positive) GAUGE)
       (description.make None) true []
     = inl InvalidDefinition
  /\ make_gauge (fun _ => false) "0" EmptyString (variable 1%positive)
       None None None None None
     = inl InvalidDefinition
  /\ make_total_bytes (fun _ => false) "0" EmptyString (variable 1%positive)
       None None None None
     = inl InvalidDefinition.
Proof.
  assert (Hbad : EmptyString = EmptyString \/ (fun _ : metric_name_type => false) EmptyString = true)
    by (left; reflexivity).
  split; [exact Hbad |].
  pose proof (unusable_name_fails (fun _ => false) "0" EmptyString Hbad)
    as (Hctor & Hbase & Hnamed).
  split; [exact (proj1 (Hctor _ _ _ _ _ _)) |].
  split; [exact (proj1 (Hbase _ _ _ _ _ _)) |].
  exact (proj1 (Hnamed _ _ _ _ _)).
Defined.

Lemma base_factory_defaults_witness :
  usable (fun _ => false) "bytes.used"
  /\ exists def,
      make_gauge (fun _ => false) "0" "bytes.used" (variable 1%positive)
        None None None None None = inr def
      /\ metric_definition_impl.enabled def = true
      /\ metric_definition_impl.id def = "0"
      /\ metric_type.type_name (metric_definition_impl.type def) = "gauge"
      /\ metric_type.base_type (metric_definition_impl.type def) = GAUGE.
Proof.
  assert (Hu : usable (fun _ => false) "bytes.used")
    by (split; [discriminate | reflexivity]).
  split; [exact Hu |].
  exact (proj1 (base_factory_defaults (fun _ => false) "0" "bytes.used"
                  (variable 1%positive) None None Hu)).
Defined.

Lemma named_flavours_base_type_witness :
  usable (fun _ => false) "send_batch_queue_length"
  /\ exists def,
      make_queue_length (fun _ => false) "0" "send_batch_queue_length"
        (variable 1%positive) None
        (Some [label.call (label.make "smp_owner") (integer 3)]) None None
      = inr def
      /\ metric_type.base_type (metric_definition_impl.type def) = GAUGE.
Proof.
  assert (Hu : usable (fun _ => false) "send_batch_queue_length")
    by (split; [discriminate | reflexivity]).
  split; [exact Hu |].
  exact (proj1 (proj1 (named_flavours_base_type (fun _ => false) "0"
                         "send_batch_queue_length" (variable 1%positive) None
                         (Some [label.call (label.make "smp_owner") (integer 3)])
                         None None Hu))).
Defined.

Lemma accessor_reads_current_value_witness :
  exists dv dg,
    base_factory (fun _ => false) "0" DERIVE "requests.total"
      (variable 1%positive) None None None None None = inr dv
    /\ base_factory (fun _ => false) "0" DERIVE "requests.total"
         (callable (fun s0 : store =>
                      (s0 : gmap address fundamental) !! 1%positive))
         None None None None None = inr dg
    /\ (exists r,
           metric_definition_impl.f dv {[ 1%positive := unsigned_int 7 ]}
           = Some r
           /\ metric_definition_impl.f dg {[ 1%positive := unsigned_int 7 ]}
              = Some r
           /\ snapshot_of r (unsigned_int 7) DERIVE)
    /\ forall x',
        exists r1 r2,
          call_assign_call (metric_definition_impl.f dv) 1%positive x'
            {[ 1%positive := unsigned_int 7 ]}
          = Some ((r1, r2),
                  <[ 1%positive := x' ]> {[ 1%positive := unsigned_int 7 ]})
          /\ call_assign_call (metric_definition_impl.f dg) 1%positive x'
               {[ 1%positive := unsigned_int 7 ]}
             = Some ((r1, r2),
                     <[ 1%positive := x' ]> {[ 1%positive := unsigned_int 7 ]})
          /\ snapshot_of r1 (unsigned_int 7) DERIVE
          /\ snapshot_of r2 x' DERIVE
          /\ (r2 = r1 <-> same_payload x' (unsigned_int 7) DERIVE).
Proof.
  assert (Hu : usable (fun _ => false) "requests.total")
    by (split; [discriminate | reflexivity]).
  assert (Hg : forall s : store,
             (fun s0 : store => (s0 : gmap address fundamental) !! 1%positive) s
             = (s : gmap address fundamental) !! 1%positive)
    by (intros s; reflexivity).
  assert (Hx : ({[ 1%positive := unsigned_int 7 ]} : gmap address fundamental)
               !! 1%positive = Some (unsigned_int 7))
    by reflexivity.
  exact (accessor_reads_current_value (fun _ => false) "0" DERIVE
           "requests.total" 1%positive _ None None None None None
           {[ 1%positive := unsigned_int 7 ]} (unsigned_int 7) Hu Hg Hx).
Defined.

(** C3 as it was stated fails: a gauge over a variable that holds 2^53
    returns the same value after the variable is assigned 2^53 + 1, so not
    every change of the variable changes the second result. *)
Lemma accessor_change_unseen :
  ~ (forall (x x' : Z) def r1 r2 sigma',
        x <> x' ->
        make_gauge (fun _ => false) "0" "bytes.used" (variable 1%positive)
          None None None None None = inr def ->
        call_assign_call (metric_definition_impl.f def) 1%positive
          (signed_int x') {[ 1%positive := signed_int x ]}
        = Some ((r1, r2), sigma') ->
        r2 <> r1).
Proof.
  intros H.
  refine (H (2 ^ 53) (2 ^ 53 + 1) _ _ _ _ _ eq_refl _ _).
  - lia.
  - cbn -[call_assign_call].
    apply (call_assign_call_reads _ GAUGE 1%positive _ (signed_int (2 ^ 53))).
    + intros s y Hy. unfold make_function_reference, store. rewrite Hy.
      reflexivity.
    + apply lookup_singleton_eq.
  - vm_compute. reflexivity.
Qed.

(** * Further properties of the header's code *)

(** ** Integer payloads *)

Lemma wrap_i64_wrap_u64 n : wrap_i64 (wrap_u64 n) = wrap_i64 n.
Proof.
  unfold wrap_i64, wrap_u64. rewrite Zplus_mod_idemp_l. reflexivity.
Qed.

Lemma wrap_u64_wrap_i64 n : wrap_u64 (wrap_i64 n) = wrap_u64 n.
Proof.
  unfold wrap_i64, wrap_u64. rewrite Zminus_mod_idemp_l.
  f_equal. lia.
Qed.

Lemma wrap_u64_of_signed n :
  in_i64 n -> wrap_u64 n = if (n <? 0)%Z then n + two64 else n.
Proof.
  unfold in_i64, wrap_u64. rewrite two64_two63. intros Hn.
  destruct (Z.ltb_spec n 0).
  - symmetry. apply Z.mod_unique with (q := -1); lia.
  - apply Z.mod_small. lia.
Qed.

Lemma wrap_i64_of_unsigned n :
  in_u64 n -> wrap_i64 n = if (n <? two63)%Z then n else n - two64.
Proof.
  unfold in_u64, wrap_i64. rewrite two64_two63. intros Hn.
  destruct (Z.ltb_spec n two63).
  - rewrite Z.mod_small by lia. lia.
  - assert (He : (n + two63) mod (2 * two63) = n - two63).
    { symmetry. apply Z.mod_unique with (q := 1); lia. }
    rewrite He. lia.
Qed.

(** X1: an integer that fits the member the tag selects is stored as it is: a
    signed 64-bit value under DERIVE, an unsigned 64-bit value under COUNTER
    and ABSOLUTE. *)
Theorem integer_payload_preserved (n : Z) :
  (in_i64 n ->
   metric_value.i (metric_value.make (signed_int n) DERIVE) = Some n)
  /\ (in_u64 n ->
      metric_value.ui (metric_value.make (unsigned_int n) COUNTER) = Some n
      /\ metric_value.ui (metric_value.make (unsigned_int n) ABSOLUTE) = Some n).
Proof.
  split.
  - intros Hn. cbn. rewrite wrap_i64_id by exact Hn. reflexivity.
  - intros Hn. cbn. rewrite wrap_u64_id by exact Hn. split; reflexivity.
Qed.

(** X2: a signed value given to a COUNTER or an ABSOLUTE is stored modulo 2^64:
    a negative [n] becomes [n + 2^64], and reading the stored number as a
    signed 64-bit value gives [n] back. *)
Theorem unsigned_tag_of_signed (n : Z) (tag : data_type) :
  in_i64 n ->
  tag = COUNTER \/ tag = ABSOLUTE ->
  exists m,
    metric_value.ui (metric_value.make (signed_int n) tag) = Some m
    /\ m = (if (n <? 0)%Z then n + two64 else n)
    /\ in_u64 m
    /\ wrap_i64 m = n.
Proof.
  intros Hn Htag. exists (wrap_u64 n).
  split; [destruct Htag as [-> | ->]; reflexivity |].
  split; [apply wrap_u64_of_signed, Hn |].
  split; [apply wrap_u64_range |].
  rewrite wrap_i64_wrap_u64. apply wrap_i64_id, Hn.
Qed.

(** X3: an unsigned value given to a DERIVE is stored as the signed reading of
    its 64 bits: from 2^63 on it becomes negative, [n - 2^64], and reading
    the stored number as an unsigned 64-bit value gives [n] back. *)
Theorem derive_of_unsigned (n : Z) :
  in_u64 n ->
  exists m,
    metric_value.i (metric_value.make (unsigned_int n) DERIVE) = Some m
    /\ m = (if (n <? two63)%Z then n else n - two64)
    /\ in_i64 m
    /\ wrap_u64 m = n.
Proof.
  intros Hn. exists (wrap_i64 n).
  split; [reflexivity |].
  split; [apply wrap_i64_of_unsigned, Hn |].
  split; [apply wrap_i64_range |].
  rewrite wrap_u64_wrap_i64. apply wrap_u64_id, Hn.
Qed.

Lemma wrap_u64_inj_on_signed x y :
  in_i64 x -> in_i64 y -> wrap_u64 x = wrap_u64 y -> x = y.
Proof.
  intros Hx Hy He.
  rewrite <- (wrap_i64_id x Hx), <- (wrap_i64_id y Hy).
  rewrite <- (wrap_i64_wrap_u64 x), <- (wrap_i64_wrap_u64 y), He. reflexivity.
Qed.

Lemma wrap_i64_inj_on_unsigned x y :
  in_u64 x -> in_u64 y -> wrap_i64 x = wrap_i64 y -> x = y.
Proof.
  intros Hx Hy He.
  rewrite <- (wrap_u64_id x Hx), <- (wrap_u64_id y Hy).
  rewrite <- (wrap_u64_wrap_i64 x), <- (wrap_u64_wrap_i64 y), He. reflexivity.
Qed.

(** X4: under an integer tag two different integers of one 64-bit type never
    give the same value: the conversion loses nothing. *)
Theorem make_injective_on_integers (x y : Z) (tag : data_type) :
  tag <> GAUGE ->
  (in_i64 x -> in_i64 y ->
   metric_value.make (signed_int x) tag = metric_value.make (signed_int y) tag ->
   x = y)
  /\ (in_u64 x -> in_u64 y ->
      metric_value.make (unsigned_int x) tag
      = metric_value.make (unsigned_int y) tag ->
      x = y).
Proof.
  intros Htag. split; intros Hx Hy He;
    destruct tag; try contradiction; cbn in He; inversion He as [Hw].
  - apply wrap_u64_inj_on_signed; assumption.
  - rewrite <- (wrap_i64_id x Hx), <- (wrap_i64_id y Hy). exact Hw.
  - apply wrap_u64_inj_on_signed; assumption.
  - rewrite <- (wrap_u64_id x Hx), <- (wrap_u64_id y Hy). exact Hw.
  - apply wrap_i64_inj_on_unsigned; assumption.
  - rewrite <- (wrap_u64_id x Hx), <- (wrap_u64_id y Hy). exact Hw.
Qed.

(** ** Gauges over integers *)

Lemma digits2_pos_iter_xO (m k : positive) :
  digits2_pos (Pos.iter xO m k) = (digits2_pos m + k)%positive.
Proof.
  induction k as [| k IH] using Pos.peano_ind.
  - cbn. rewrite Pos.add_1_r. reflexivity.
  - rewrite Pos.iter_succ. cbn. rewrite IH, Pos.add_succ_r. reflexivity.
Qed.

Lemma Zpos_iter_xO (m k : positive) :
  Zpos (Pos.iter xO m k) = Zpos m * 2 ^ Zpos k.
Proof.
  induction k as [| k IH] using Pos.peano_ind.
  - cbn. lia.
  - rewrite Pos.iter_succ, Pos2Z.inj_xO, IH, Pos2Z.inj_succ, Z.pow_succ_r by lia.
    lia.
Qed.

Lemma digits2_pos_bound (m : positive) (k : Z) :
  0 <= k -> Zpos m < 2 ^ k -> Zpos (digits2_pos m) <= k.
Proof.
  revert k. induction m as [m IH | m IH |]; intros k Hk Hm; cbn [digits2_pos].
  - rewrite Pos2Z.inj_succ.
    assert (Hk1 : 0 < k).
    { destruct (Z.eq_dec k 0) as [-> | Hne]; [cbn in Hm; lia | lia]. }
    assert (Hm' : Zpos m < 2 ^ (k - 1)).
    { replace k with (Z.succ (k - 1)) in Hm by lia.
      rewrite Z.pow_succ_r in Hm by lia. lia. }
    specialize (IH (k - 1) ltac:(lia) Hm'). lia.
  - rewrite Pos2Z.inj_succ.
    assert (Hk1 : 0 < k).
    { destruct (Z.eq_dec k 0) as [-> | Hne]; [cbn in Hm; lia | lia]. }
    assert (Hm' : Zpos m < 2 ^ (k - 1)).
    { replace k with (Z.succ (k - 1)) in Hm by lia.
      rewrite Z.pow_succ_r in Hm by lia. lia. }
    specialize (IH (k - 1) ltac:(lia) Hm'). lia.
  - destruct (Z.eq_dec k 0) as [-> | Hne]; [cbn in Hm; lia | lia].
Qed.

Lemma binary_round_aux_canonical (s : bool) (mz : positive) (ez : Z) :
  Zpos (digits2_pos mz) = dprec ->
  -1074 <= ez <= 971 ->
  binary_round_aux dprec demax s (Zpos mz) ez loc_Exact = S754_finite s mz ez.
Proof.
  intros Hd He.
  assert (Hf : fexp dprec demax (Zdigits2 (Zpos mz) + ez) - ez = 0).
  { unfold fexp, emin, Zdigits2. rewrite Hd. unfold dprec, demax. rewrite Z.max_l by lia. lia. }
  unfold binary_round_aux, shr_fexp. rewrite Hf. cbn [shr shr_record_of_loc].
  cbn [shr_m loc_of_shr_record round_nearest_even]. rewrite Hf.
  cbn [shr shr_record_of_loc shr_m].
  replace (ez <=? demax - dprec)%Z with true; [reflexivity |].
  symmetry. apply Z.leb_le. unfold demax, dprec. lia.
Qed.

Lemma binary_round_small (s : bool) (m : positive) :
  Zpos m < 2 ^ dprec ->
  exists mz k,
    binary_round dprec demax s m 0 = S754_finite s mz (- k)
    /\ 0 <= k /\ Zpos mz = Zpos m * 2 ^ k.
Proof.
  intros Hm.
  pose proof (digits2_pos_bound m dprec ltac:(unfold dprec; lia) Hm) as Hd.
  unfold binary_round.
  assert (Hf : fexp dprec demax (Zpos (digits2_pos m) + 0)
               = Zpos (digits2_pos m) - dprec).
  { unfold fexp, emin. unfold dprec, demax in *. rewrite Z.max_l by lia. lia. }
  rewrite Hf. unfold shl_align.
  destruct (Zpos (digits2_pos m) - dprec - 0) as [| p | p] eqn:Hdiff.
  - exists m, 0. rewrite binary_round_aux_canonical by (unfold dprec in *; lia).
    repeat split; [reflexivity | lia].
  - unfold dprec in *. lia.
  - exists (Pos.iter xO m p), (Zpos p).
    rewrite binary_round_aux_canonical.
    + replace (Zpos (digits2_pos m) - dprec) with (- Zpos p) by lia.
      repeat split; [lia | apply Zpos_iter_xO].
    + rewrite digits2_pos_iter_xO, Pos2Z.inj_add. lia.
    + unfold dprec in *. lia.
Qed.

Lemma double_trunc_finite (s : bool) (mz : positive) (k m : Z) :
  0 <= k -> Zpos mz = m * 2 ^ k ->
  double_trunc (S754_finite s mz (- k)) = Some (cond_Zopp s m).
Proof.
  intros Hk Hmz. unfold double_trunc.
  destruct k as [| p | p]; try lia.
  - change (- 0) with 0. cbv iota.
    rewrite Z.pow_0_r, Z.mul_1_r in Hmz. rewrite Hmz. reflexivity.
  - change (- Z.pos p) with (Z.neg p). cbv iota.
    rewrite Hmz, Z.div_mul by lia. reflexivity.
Qed.

Lemma double_of_Z_exact (n : Z) :
  - 2 ^ 53 < n < 2 ^ 53 -> double_trunc (double_of_Z n) = Some n.
Proof.
  intros Hn. unfold double_of_Z, binary_normalize.
  destruct n as [| m | m].
  - reflexivity.
  - destruct (binary_round_small false m) as (mz & k & -> & Hk & Hmz);
      [unfold dprec; lia |].
    rewrite (double_trunc_finite _ _ _ _ Hk Hmz). reflexivity.
  - destruct (binary_round_small true m) as (mz & k & -> & Hk & Hmz);
      [unfold dprec; lia |].
    rewrite (double_trunc_finite _ _ _ _ Hk Hmz). reflexivity.
Qed.


(** X6: below 2^53 in magnitude, different integers give different GAUGE
    values. *)
Theorem gauge_injective_below_2_53 (x y : Z) :
  - 2 ^ 53 < x < 2 ^ 53 ->
  - 2 ^ 53 < y < 2 ^ 53 ->
  metric_value.make (signed_int x) GAUGE = metric_value.make (signed_int y) GAUGE ->
  x = y.
Proof.
  intros Hx Hy He. cbn in He. inversion He as [Hd].
  pose proof (double_of_Z_exact x Hx) as Htx.
  pose proof (double_of_Z_exact y Hy) as Hty.
  rewrite Hd in Htx. rewrite Htx in Hty. inversion Hty. reflexivity.
Qed.

(** X7: over the whole 64-bit range the construction of a GAUGE is not
    injective: the [double] of 2^53 + 1 is the one of 2^53, so two different
    integers can give the same GAUGE value. *)
Theorem gauge_not_injective :
  exists x y,
    in_i64 x /\ in_i64 y /\ x <> y
    /\ metric_value.make (signed_int x) GAUGE
       = metric_value.make (signed_int y) GAUGE.
Proof.
  exists (2 ^ 53), (2 ^ 53 + 1).
  split; [unfold in_i64, two63; lia |].
  split; [unfold in_i64, two63; lia |].
  split; [lia |].
  vm_compute. reflexivity.
Qed.

(** ** Labels from values *)

(** X8: labels made by one [label] from two integers of a type wider than a
    byte are the same instance exactly when the integers are equal.  For the
    8-bit integer and character types the character with that code is
    written instead, so the label from [int8_t(49)] is the label from the
    [int] 1. *)
Theorem lexical_cast_integer_injective (l : label.t) (n m : Z) :
  (label.call l (integer n) = label.call l (integer m) <-> n = m)
  /\ label.call l (character (char_of_code 49)) = label.call l (integer 1)
  /\ (forall c,
         label.call l (character c)
         = label.call l (text (String c EmptyString))).
Proof.
  split; [| split; reflexivity].
  split; [| intros ->; reflexivity].
  intros He. inversion He as [Hs]. apply decimal_inj. exact Hs.
Qed.

(** X9: two instances made by [label]s are the same exactly when the labels have
    the same name and the values have the same text. *)
Theorem label_call_eq_iff (l1 l2 : label.t) (v1 v2 : streamable) :
  label.call l1 v1 = label.call l2 v2 <->
  label.name l1 = label.name l2 /\ lexical_cast v1 = lexical_cast v2.
Proof.
  unfold label.call, label.name, label_instance.make. split.
  - intros He. inversion He. split; reflexivity || assumption.
  - intros [Hk Hv]. rewrite Hk, Hv. reflexivity.
Qed.

(** X10: the instance keeps the text of the value and not its type: a [bool]
    gives the instance of the integer 0 or 1, and any value the instance of
    its own text. *)
Theorem label_value_type_erased (k : sstring) (b : bool) (v : streamable) :
  label_instance.make k (boolean b) = label_instance.make k (integer (Z.b2z b))
  /\ label_instance.make k v = label_instance.make k (text (lexical_cast v))
  /\ label_instance.key (label_instance.make k v) = k.
Proof.
  split; [destruct b; reflexivity |]. split; reflexivity.
Qed.

(** ** Accessors *)

Lemma make_function_some
    (val : value_source) (dt : data_type) (sigma : store) (r : metric_value.t) :
  make_function val dt sigma = Some r -> exists x, r = metric_value.make x dt.
Proof.
  intros Hr.
  destruct val as [g | a]; cbn in Hr;
    unfold make_function_callable, make_function_reference in Hr.
  - destruct (g sigma) as [x |]; [| discriminate].
    cbn in Hr. inversion Hr. eexists; reflexivity.
  - destruct ((sigma : gmap address fundamental) !! a) as [x |] eqn:Hx;
      unfold store in *; rewrite Hx in Hr; [| discriminate].
    cbn in Hr. inversion Hr. eexists; reflexivity.
Qed.

(** X11: whatever an accessor returns carries the base type it was built for and
    a payload in the member of that type. *)
Theorem accessor_result_tagged
    (val : value_source) (dt : data_type) (sigma : store) (r : metric_value.t) :
  make_function val dt sigma = Some r ->
  metric_value.type r = dt
  /\ tagged_payload r = true
  /\ match dt with
     | GAUGE => is_Some (metric_value.d r)
     | DERIVE => is_Some (metric_value.i r)
     | COUNTER | ABSOLUTE => is_Some (metric_value.ui r)
     end.
Proof.
  intros Hr. destruct (make_function_some _ _ _ _ Hr) as [x ->].
  split; [reflexivity |]. split; [apply make_tagged_payload |].
  destruct dt; cbn; eexists; reflexivity.
Qed.

(** X12: an accessor over the variable [v] does not see an assignment to another
    variable: the calls before and after it return the same value. *)
Theorem accessor_frame
    (dt : data_type) (v a : address) (sigma : store) (x y x' : fundamental) :
  a <> v ->
  (sigma : gmap address fundamental) !! v = Some x ->
  (sigma : gmap address fundamental) !! a = Some y ->
  call_assign_call (make_function (variable v) dt) a x' sigma
  = Some ((metric_value.make x dt, metric_value.make x dt), <[a := x']> sigma).
Proof.
  intros Hne Hx Hy.
  unfold call_assign_call, call, assign, mbind, caller_bind, mret, caller_ret.
  cbn. unfold make_function_reference, store in *.
  rewrite Hx. cbn. rewrite Hy.
  rewrite lookup_insert_ne by exact Hne. rewrite Hx. reflexivity.
Qed.

(** X13: an accessor over a callable sees an assignment only through what the
    callable reads: when the callable returns the same after the assignment
    (as a lambda that captured a copy of the variable does) the second call
    returns what the first returned. *)
Theorem accessor_callable_frame
    (dt : data_type) (g : store -> option fundamental) (a : address)
    (sigma : store) (c y x' : fundamental) :
  g sigma = Some c ->
  g (<[a := x']> sigma) = g sigma ->
  (sigma : gmap address fundamental) !! a = Some y ->
  call_assign_call (make_function (callable g) dt) a x' sigma
  = Some ((metric_value.make c dt, metric_value.make c dt), <[a := x']> sigma).
Proof.
  intros Hc Hg Hy.
  unfold call_assign_call, call, assign, mbind, caller_bind, mret, caller_ret.
  cbn. unfold make_function_callable, store in *.
  rewrite Hc. cbn. rewrite Hy, Hg, Hc. reflexivity.
Qed.

(** ** Definitions and their accessors *)

Section FurtherFactoryProperties.

Variable malformed : metric_name_type -> bool.
Variable shard : instance_id_type.

Lemma base_factory_inr dt name val d labels enabled instance iht def :
  base_factory malformed shard dt name val d labels enabled instance iht
  = inr def ->
  metric_type.base_type (metric_definition_impl.type def) = dt
  /\ metric_definition_impl.f def = make_function val dt.
Proof.
  destruct dt; unfold base_factory, make_gauge, make_derive, make_counter,
    make_absolute; cbn zeta; intros Hd;
    apply make_inr_inv in Hd as [_ ->]; split; reflexivity.
Qed.

(** X15: the named flavours change the flavour and nothing else: an argument left
    out of one of them gets the default the base factory would give it, so
    the call is the call of the base factory with the same arguments and the
    flavour. *)
Theorem named_flavours_keep_defaults
    (name : metric_name_type) (val : value_source)
    (d : option description.t) (labels : option (list label_instance.t))
    (enabled : option bool) (instance : option instance_id_type) :
  make_total_bytes malformed shard name val d enabled labels instance
  = make_derive malformed shard name val d labels enabled instance
      (Some "total_bytes")
  /\ make_current_bytes malformed shard name val d labels enabled instance
     = make_derive malformed shard name val d labels enabled instance
         (Some "bytes")
  /\ make_queue_length malformed shard name val d labels enabled instance
     = make_gauge malformed shard name val d labels enabled instance
         (Some "queue_length")
  /\ make_total_operations malformed shard name val d labels enabled instance
     = make_derive malformed shard name val d labels enabled instance
         (Some "total_operations").
Proof.
  destruct d, labels, enabled, instance; repeat split.
Qed.

(** X14: the type descriptor of a definition and the values its accessor returns
    agree: whichever factory built the definition, with whatever flavour,
    every value the accessor returns has the base type of the definition
    and a payload in the member of that type. *)
Theorem definition_accessor_matches_base_type
    (name : metric_name_type) (val : value_source)
    (d : option description.t) (labels : option (list label_instance.t))
    (enabled : option bool) (instance : option instance_id_type)
    (iht : option metric_type_def)
    (def : metric_definition_impl.t) (sigma : store) (r : metric_value.t) :
  (exists dt,
      base_factory malformed shard dt name val d labels enabled instance iht
      = inr def)
  \/ make_total_bytes malformed shard name val d enabled labels instance
     = inr def
  \/ make_current_bytes malformed shard name val d labels enabled instance
     = inr def
  \/ make_queue_length malformed shard name val d labels enabled instance
     = inr def
  \/ make_total_operations malformed shard name val d labels enabled instance
     = inr def ->
  metric_definition_impl.f def sigma = Some r ->
  metric_value.type r
  = metric_type.base_type (metric_definition_impl.type def)
  /\ tagged_payload r = true.
Proof.
  intros Hdef Hr.
  assert (Hb : exists dt,
             metric_type.base_type (metric_definition_impl.type def) = dt
             /\ metric_definition_impl.f def = make_function val dt).
  { destruct Hdef as [[dt Hd] | [Hd | [Hd | [Hd | Hd]]]].
    - exists dt. exact (base_factory_inr _ _ _ _ _ _ _ _ _ Hd).
    - exists DERIVE. exact (base_factory_inr DERIVE _ _ _ _ _ _ _ _ Hd).
    - exists DERIVE. exact (base_factory_inr DERIVE _ _ _ _ _ _ _ _ Hd).
    - exists GAUGE. exact (base_factory_inr GAUGE _ _ _ _ _ _ _ _ Hd).
    - exists DERIVE. exact (base_factory_inr DERIVE _ _ _ _ _ _ _ _ Hd). }
  destruct Hb as (dt & Hbase & Hf).
  rewrite Hf in Hr. rewrite Hbase.
  destruct (make_function_some _ _ _ _ Hr) as [x ->].
  split; [reflexivity | apply make_tagged_payload].
Qed.

End FurtherFactoryProperties.

(** ** Concrete instances of the further properties *)

Lemma unsigned_tag_of_signed_witness :
  exists m,
    metric_value.ui (metric_value.make (signed_int (-1)) COUNTER) = Some m
    /\ m = (if (-1 <? 0)%Z then -1 + two64 else -1)
    /\ in_u64 m
    /\ wrap_i64 m = -1.
Proof.
  apply (unsigned_tag_of_signed (-1) COUNTER).
  - unfold in_i64, two63. lia.
  - left. reflexivity.
Defined.

Lemma derive_of_unsigned_witness :
  exists m,
    metric_value.i (metric_value.make (unsigned_int (2 ^ 63)) DERIVE) = Some m
    /\ m = (if (2 ^ 63 <? two63)%Z then 2 ^ 63 else 2 ^ 63 - two64)
    /\ in_i64 m
    /\ wrap_u64 m = 2 ^ 63.
Proof.
  apply (derive_of_unsigned (2 ^ 63)).
  unfold in_u64, two64. lia.
Defined.

Lemma make_injective_on_integers_witness :
  (in_i64 7 -> in_i64 7 ->
   metric_value.make (signed_int 7) COUNTER
   = metric_value.make (signed_int 7) COUNTER ->
   7 = 7)
  /\ (in_u64 7 -> in_u64 7 ->
      metric_value.make (unsigned_int 7) COUNTER
      = metric_value.make (unsigned_int 7) COUNTER ->
      7 = 7).
Proof.
  apply (make_injective_on_integers 7 7 COUNTER). discriminate.
Defined.


Lemma gauge_injective_below_2_53_witness : 42 = 42.
Proof.
  apply (gauge_injective_below_2_53 42 42); [lia | lia | reflexivity].
Defined.

Lemma accessor_result_tagged_witness :
  metric_value.type (metric_value.make (signed_int 10) GAUGE) = GAUGE
  /\ tagged_payload (metric_value.make (signed_int 10) GAUGE) = true
  /\ is_Some (metric_value.d (metric_value.make (signed_int 10) GAUGE)).
Proof.
  apply (accessor_result_tagged (variable 1%positive) GAUGE
           {[ 1%positive := signed_int 10 ]}).
  reflexivity.
Defined.

Lemma accessor_frame_witness :
  call_assign_call (make_function (variable 1%positive) DERIVE) 2%positive
    (signed_int 9)
    (<[ 2%positive := signed_int 0 ]> {[ 1%positive := signed_int 7 ]})
  = Some ((metric_value.make (signed_int 7) DERIVE,
           metric_value.make (signed_int 7) DERIVE),
          <[ 2%positive := signed_int 9 ]>
            (<[ 2%positive := signed_int 0 ]> {[ 1%positive := signed_int 7 ]})).
Proof.
  apply (accessor_frame DERIVE 1%positive 2%positive _ _ (signed_int 0)).
  - discriminate.
  - reflexivity.
  - reflexivity.
Defined.

Lemma accessor_callable_frame_witness :
  call_assign_call
    (make_function (callable (fun _ => Some (signed_int 7))) DERIVE) 1%positive
    (signed_int 9) {[ 1%positive := signed_int 7 ]}
  = Some ((metric_value.make (signed_int 7) DERIVE,
           metric_value.make (signed_int 7) DERIVE),
          <[ 1%positive := signed_int 9 ]> {[ 1%positive := signed_int 7 ]}).
Proof.
  apply (accessor_callable_frame DERIVE (fun _ => Some (signed_int 7))
           1%positive _ (signed_int 7) (signed_int 7)).
  - reflexivity.
  - reflexivity.
  - reflexivity.
Defined.

Lemma definition_accessor_matches_base_type_witness :
  metric_value.type (metric_value.make (unsigned_int 3) GAUGE)
  = metric_type.base_type
      (metric_definition_impl.type
         (metric_definition_impl.Build "queue" "0"
            (metric_type.Build GAUGE "queue_length")
            (make_function (variable 1%positive) GAUGE)
            (description.make None) true
            (metric_definition_impl.labels_of [])))
  /\ tagged_payload (metric_value.make (unsigned_int 3) GAUGE) = true.
Proof.
  apply (definition_accessor_matches_base_type (fun _ => false) "0"
           "queue" (variable 1%positive) None None None None None
           _ {[ 1%positive := unsigned_int 3 ]}).
  - right. right. right. left. reflexivity.
  - reflexivity.
Defined.
